(** * pygs.statmisc: miscellaneous statistical functions for time series

    A shallow embedding of [pygs/statmisc.py] and the properties of its six
    functions: [siglev], [cnfint], [autocorr], [smooth_ts], [run_corr] and
    [mann_kendall].

    Conventions of the embedding.
    - Numbers are NumPy values.  A NumPy floating-point scalar is idealised
      as a real number ([R]); [float64] and [float32] storage are both [R]
      ([np.float] is the alias of [float64] of the NumPy the module was
      written for), so rounding is outside the model.  Where NumPy divides
      by zero and yields [inf] or [nan] (with a warning, never an
      exception) the model has [Rdiv]; no theorem below depends on the
      value of a division by zero.
    - [np.correlate], [np.corrcoef] and [st.kendalltau] are modelled from
      the definitions and the argument checks that NumPy and SciPy
      document for them.
    - The one place where the program inspects its input for [nan] is
      [mann_kendall] (through [nan_policy="raise"]); there the elements are
      of type [float], which adds [nan] to the reals.
    - A Python exception is a value of [exn]; a call returns a [result].
    - The Student t distribution functions [st.t.cdf] and [st.t.ppf] and the
      p-value of [st.kendalltau] are parameters of the sections that use
      them: the module only passes arguments to them and returns what they
      give. *)

From Stdlib Require Import String DecimalString Reals Lra Lia ZArith Bool Arith List Sorted.
From Equations Require Import Equations.
Import ListNotations.

Local Open Scope Z_scope.
Local Open Scope R_scope.

(** ** Exceptions and results *)

Inductive exn : Type :=
| ValueError (msg : string)
| SystemError (msg : string)
| TypeError (msg : string)
| IndexError (msg : string).

Inductive result (A : Type) : Type :=
| Ok (a : A)
| Raise (e : exn).

Arguments Ok {A} a.
Arguments Raise {A} e.

Definition bind {A B : Type} (m : result A) (k : A -> result B) : result B :=
  match m with
  | Ok a => k a
  | Raise e => Raise e
  end.

Notation "x <- m ;; k" := (bind m (fun x => k))
  (at level 61, m at next level, right associativity).

(** Remembers the equation of a test, for loops defined by well-founded
    recursion on what the test bounds. *)
Definition inspect {A : Type} (a : A) : {b : A | a = b} := exist _ a eq_refl.

(** ** NumPy arrays *)

Module np.

(** An [ndarray]: its [shape] and its elements in row-major order. *)
Record ndarray (A : Type) : Type := mk_ndarray {
  shape : list nat;
  flat : list A
}.

Arguments mk_ndarray {A} shape flat.
Arguments shape {A} n.
Arguments flat {A} n.

(** [np.array(l)] for a flat Python list [l]: a 1-D array. *)
Definition array {A : Type} (l : list A) : ndarray A :=
  mk_ndarray [length l] l.

(** [len(a.shape)] *)
Definition ndim {A : Type} (a : ndarray A) : nat := length (shape a).

(** [len(a)]: the first dimension; a 0-d array has no length. *)
Definition len {A : Type} (a : ndarray A) : result Z :=
  match shape a with
  | [] => Raise (TypeError "len() of unsized object")
  | n :: _ => Ok (Z.of_nat n)
  end.

(** Python's index normalisation for the bounds of [l[start:stop]]. *)
Definition slice_bound (n k : Z) : Z :=
  if (k <? 0)%Z then Z.max (k + n) 0 else Z.min k n.

(** [l[start:stop]] *)
Definition slice {A : Type} (l : list A) (start stop : Z) : list A :=
  let n := Z.of_nat (length l) in
  let lo := slice_bound n start in
  let hi := slice_bound n stop in
  firstn (Z.to_nat (hi - lo)) (skipn (Z.to_nat lo) l).

(** [a[i] = v] on a 1-D array, for a non-negative or negative index. *)
Fixpoint update {A : Type} (l : list A) (i : nat) (v : A) : list A :=
  match l, i with
  | [], _ => []
  | _ :: t, O => v :: t
  | x :: t, S j => x :: update t j v
  end.

Definition setitem {A : Type} (l : list A) (i : Z) (v : A) : result (list A) :=
  let n := Z.of_nat (length l) in
  let j := if (i <? 0)%Z then (i + n)%Z else i in
  if ((0 <=? j) && (j <? n))%Z%bool
  then Ok (update l (Z.to_nat j) v)
  else Raise (IndexError "index is out of bounds for axis 0").

(** [np.empty(n, dtype)]: [n] cells of unspecified content (here [0]). *)
Definition empty (n : Z) : result (list R) :=
  if (n <? 0)%Z
  then Raise (ValueError "negative dimensions are not allowed")
  else Ok (repeat 0 (Z.to_nat n)).

(** [range(i, i + m)] as integers. *)
Fixpoint zrange (i : Z) (m : nat) : list Z :=
  match m with
  | O => []
  | S m' => i :: zrange (i + 1) m'
  end.

Definition sum (l : list R) : R := fold_right Rplus 0 l.

(** [np.mean(l)] *)
Definition mean (l : list R) : R := sum l / INR (length l).

(** [np.std(l)]: the population standard deviation ([ddof = 0]). *)
Definition std (l : list R) : R :=
  sqrt (mean (map (fun x => Rsqr (x - mean l)) l)).

(** Elementwise arithmetic keeps the shape of the array. *)
Definition map_array {A B : Type} (f : A -> B) (a : ndarray A) : ndarray B :=
  mk_ndarray (shape a) (map f (flat a)).

(** One entry of [np.cov(x, y)] (default [ddof = 1]): the products of the
    centred samples, summed, times [1 / fact]; [fact] is [len - 1], or
    [0.0] (with a warning) when that is not positive. *)
Definition cov (x y : list R) : R :=
  let fact := if (length x <=? 1)%nat then 0 else INR (length x) - 1 in
  sum (map (fun p => (fst p - mean x) * (snd p - mean y)) (combine x y))
  * (1 / fact).

(** [np.clip(v, lo, hi)] *)
Definition clip (v lo hi : R) : R := Rmin (Rmax v lo) hi.

(** The off-diagonal entry of the correlation matrix: the covariance
    divided by both standard deviations, clipped to [-1, 1]. *)
Definition pearson (x y : list R) : R :=
  clip (cov x y / sqrt (cov x x) / sqrt (cov y y)) (-1) 1.

(** [np.corrcoef(x, y)[0][1]] for two 1-D samples. *)
Definition corrcoef (x y : list R) : result R :=
  if (length x =? length y)%nat then Ok (pearson x y)
  else Raise (ValueError "all the input array dimensions except for the concatenation axis must match exactly").

(** [a[k]], and [0] outside the array: the zero padding of a full
    correlation. *)
Definition padded (a : list R) (k : Z) : R :=
  if (k <? 0)%Z then 0 else nth (Z.to_nat k) a 0.

(** The lags of a full correlation, [c_k = sum_n a[n+k] * v[n]] for
    [k = -(len(v) - 1) .. len(a) - 1]. *)
Definition correlate_full (a v : list R) : list R :=
  map (fun k =>
         sum (map (fun n => padded a (Z.of_nat n + k) * nth n v 0)
                  (seq 0 (length v))))
      (zrange (- (Z.of_nat (length v) - 1)) (length a + length v - 1)).

(** [np.correlate(a, v, mode='full')]: both arguments are 1-D and not
    empty. *)
Definition correlate (a v : ndarray R) : result (ndarray R) :=
  if ((ndim a =? 0) || (ndim v =? 0))%nat
  then Raise (ValueError "object of too small depth for desired array")
  else if ((1 <? ndim a) || (1 <? ndim v))%nat
  then Raise (ValueError "object too deep for desired array")
  else match flat a, flat v with
       | [], _ => Raise (ValueError "first array argument cannot be empty")
       | _, [] => Raise (ValueError "second array argument cannot be empty")
       | _, _ => Ok (array (correlate_full (flat a) (flat v)))
       end.

(** [np.arange(n)] *)
Definition arange (n : Z) : list R := map IZR (zrange 0 (Z.to_nat n)).

(** Masked arrays: each element with its mask bit ([true]: missing). *)
Module ma.

Definition masked_array : Type := list (R * bool).

(** The elements that are not masked. *)
Definition compressed (x : masked_array) : list R :=
  map fst (filter (fun p => negb (snd p)) x).

(** [np.ma.mean(x)] and [np.ma.std(x)] skip the masked elements. *)
Definition mean (x : masked_array) : R := np.mean (compressed x).
Definition std (x : masked_array) : R := np.std (compressed x).

End ma.

(** [np.size(x)] counts every element, masked or not. *)
Definition size (x : ma.masked_array) : R := INR (length x).

End np.

(** ** SciPy's rank correlation *)

(** A floating-point value that may be [nan]. *)
Inductive float : Type :=
| nan
| fin (r : R).

Module st.

Definition isnan (f : float) : bool :=
  match f with nan => true | fin _ => false end.

Definition value (f : float) : R :=
  match f with nan => 0 | fin r => r end.

(** The number of pairs [i < j] of a list that satisfy [p]. *)
Fixpoint count_pairs {A : Type} (p : A -> A -> bool) (l : list A) : nat :=
  match l with
  | [] => O
  | a :: t => (length (filter (p a) t) + count_pairs p t)%nat
  end.

Definition Req_b (a b : R) : bool := if Req_dec_T a b then true else false.
Definition Rlt_b (a b : R) : bool := if Rlt_dec a b then true else false.

Definition tied_x (p q : R * R) : bool := Req_b (fst p) (fst q).
Definition tied_y (p q : R * R) : bool := Req_b (snd p) (snd q).
Definition tied_xy (p q : R * R) : bool := tied_x p q && tied_y p q.
Definition discordant (p q : R * R) : bool :=
  (Rlt_b (fst p) (fst q) && Rlt_b (snd q) (snd p))
  || (Rlt_b (fst q) (fst p) && Rlt_b (snd p) (snd q)).

(** [st.kendalltau(x, y, nan_policy="raise")]: Kendall's tau-b and its
    p-value.  Empty input gives [nan]; a [nan] in the input raises; a
    sample that is all ties gives [nan]; otherwise
    [tau = (con - dis) / sqrt(tot - xtie) / sqrt(tot - ytie)], limited
    to [-1, 1].  The p-value is computed by [pvalue]. *)
Definition kendalltau (pvalue : list R -> list R -> float)
    (x y : list float) : result (float * float) :=
  if negb (length x =? length y)%nat
  then Raise (ValueError "All inputs to `kendalltau` must be of the same size")
  else if (length x =? 0)%nat then Ok (nan, nan)
  else if existsb isnan x || existsb isnan y
  then Raise (ValueError "The input contains nan values")
  else
    let xs := map value x in
    let ys := map value y in
    let xy := combine xs ys in
    let size := length xs in
    let tot := (size * (size - 1) / 2)%nat in
    let dis := count_pairs discordant xy in
    let ntie := count_pairs tied_xy xy in
    let xtie := count_pairs tied_x xy in
    let ytie := count_pairs tied_y xy in
    if ((xtie =? tot) || (ytie =? tot))%nat then Ok (nan, nan)
    else
      let con_minus_dis :=
        (Z.of_nat tot - Z.of_nat xtie - Z.of_nat ytie + Z.of_nat ntie
         - 2 * Z.of_nat dis)%Z in
      let tau := IZR con_minus_dis / sqrt (INR (tot - xtie))
                 / sqrt (INR (tot - ytie)) in
      let tau := Rmin 1 (Rmax (-1) tau) in
      Ok (fin tau, pvalue xs ys).

End st.

(** ** Calls that leave a trace *)

(** [siglev] validates its arguments between its calls to the statistics
    routines; to state what has been computed when it raises, its model
    records every library call, in order. *)
Inductive call : Type :=
| call_ma_mean (x : np.ma.masked_array)
| call_ma_std (x : np.ma.masked_array)
| call_size (x : np.ma.masked_array)
| call_ma_abs (r : R)
| call_sqrt (r : R)
| call_t_cdf (t dof : R).

Definition traced (A : Type) : Type := (list call * result A)%type.

Definition tret {A : Type} (a : A) : traced A := ([], Ok a).
Definition traise {A : Type} (e : exn) : traced A := ([], Raise e).
Definition tcall {A : Type} (c : call) (a : A) : traced A := ([c], Ok a).

Definition tbind {A B : Type} (m : traced A) (k : A -> traced B) : traced B :=
  match m with
  | (t, Ok a) => let (t', r) := k a in (t ++ t', r)
  | (t, Raise e) => (t, Raise e)
  end.

Notation "x <~ m ;; k" := (tbind m (fun x => k))
  (at level 61, m at next level, right associativity).

Definition is_some {A : Type} (o : option A) : bool :=
  match o with Some _ => true | None => false end.

(** ** The module [statmisc] *)

Module statmisc.

Section Library.

(** [st.t.cdf(t, dof)], [st.t.ppf(q, dof)] and the p-value of
    [st.kendalltau]. *)
Variable t_cdf : R -> R -> R.
Variable t_ppf : R -> R -> R.
Variable kendall_pvalue : list R -> list R -> float.

(** *** [siglev] (lines 17-75) *)

Definition siglev (x y : option np.ma.masked_array)
    (xbar ybar xstd ystd nx ny : option R) (pooled : bool) : traced R :=
  xs <~ match x with
        | Some x =>
            if is_some xbar || is_some xstd || is_some nx
            then traise (SystemError "siglev: both x and xbar/xstd/nx cannot be passed together.")
            else
              xbar <~ tcall (call_ma_mean x) (np.ma.mean x) ;;
              sx <~ tcall (call_ma_std x) (np.ma.std x) ;;
              nx <~ tcall (call_size x) (np.size x) ;;
              tret (xbar, sx, nx)
        | None =>
            match xbar, xstd, nx with
            | Some xbar, Some xstd, Some nx => tret (xbar, xstd, nx)
            | _, _, _ =>
                traise (SystemError "siglev: at least x or xbar, xstd, nx should be passed.")
            end
        end ;;
  let '(xbar, sx, nx) := xs in
  ys <~ match y with
        | Some y =>
            if is_some ybar || is_some ystd || is_some ny
            then traise (SystemError "siglev: both y and ybar/ystd/ny cannot be passed together.")
            else
              ybar <~ tcall (call_ma_mean y) (np.ma.mean y) ;;
              sy <~ tcall (call_ma_std y) (np.ma.std y) ;;
              ny <~ tcall (call_size y) (np.size y) ;;
              tret (ybar, sy, ny)
        | None =>
            match ybar, ystd, ny with
            | Some ybar, Some ystd, Some ny => tret (ybar, ystd, ny)
            | _, _, _ =>
                traise (SystemError "siglev: at least y or ybar,ystd,ny should be passed.")
            end
        end ;;
  let '(ybar, sy, ny) := ys in
  let dof := nx + ny - 2 in
  let denom :=
    if pooled
    then ((nx - 1) * sx ^ 2 + (ny - 1) * sy ^ 2) / (nx + ny - 2)
         * (nx + ny) / (nx * ny)
    else sx ^ 2 / nx + sy ^ 2 / ny in
  num <~ tcall (call_ma_abs (xbar - ybar)) (Rabs (xbar - ybar)) ;;
  den <~ tcall (call_sqrt denom) (sqrt denom) ;;
  let tval := num / den in
  clevm <~ tcall (call_t_cdf tval dof) (t_cdf tval dof) ;;
  let clevm := (1 - clevm) * 2 in
  let clevm := (1 - clevm) * 100 in
  tret clevm.

(** *** [cnfint] (lines 79-96) *)

Definition cnfint (xstd nx clev : R) (tail : Z) : R :=
  let cl := if (tail =? 1)%Z then clev else 1 - (1 - clev) / 2 in
  let sdbar := xstd / sqrt nx in
  let tinv_val := t_ppf cl (nx - 1) in
  let diff := tinv_val * sdbar in
  diff.

(** *** [autocorr] (lines 99-123) *)

Definition autocorr (a v : np.ndarray R) : result (np.ndarray R) :=
  if (1 <? np.ndim a)%nat
  then Raise (ValueError "Only 1D objects expected for a")
  else if (1 <? np.ndim v)%nat
  then Raise (ValueError "Only 1D objects expected for v")
  else
    let a_mean := np.mean (np.flat a) in
    let a_std := np.std (np.flat a) in
    a_len <- np.len a ;;
    let a := np.map_array (fun x => (x - a_mean) / (a_std * IZR a_len)) a in
    let v_mean := np.mean (np.flat v) in
    let v_std := np.std (np.flat v) in
    let v := np.map_array (fun x => (x - v_mean) / v_std) v in
    corr <- np.correlate a v ;;
    Ok corr.

(** *** [smooth_ts] (lines 127-153) *)

Equations? smooth_loop (ts : list R) (window n i : Z) (ts_smooth : list R)
  : result (list R) by wf (Z.to_nat (n - window + 1 - i)) lt :=
  smooth_loop ts window n i ts_smooth with inspect (i + window <=? n)%Z := {
    | exist _ true Hc =>
        match np.setitem ts_smooth i
                (np.mean (np.slice ts i (i + window))) with
        | Ok ts_smooth' => smooth_loop ts window n (i + 1) ts_smooth'
        | Raise e => Raise e
        end
    | exist _ false _ => Ok ts_smooth
  }.
Proof. apply Z.leb_le in Hc. lia. Qed.

(** [window] is an [int], so the [isinstance] test passes. *)
Definition smooth_ts (ts : np.ndarray R) (window : Z)
  : result (np.ndarray R) :=
  if (1 <? np.ndim ts)%nat
  then Raise (ValueError "Expected 1D vector for ts")
  else
    n <- np.len ts ;;
    let ns := (n - window + 1)%Z in
    ts_smooth <- np.empty ns ;;
    ts_smooth <- smooth_loop (np.flat ts) window n 0 ts_smooth ;;
    Ok (np.array ts_smooth).

(** *** [run_corr] (lines 157-189) *)

Equations? run_corr_loop (arr1 arr2 : list R) (window_size a1 i : Z)
    (run_corr_arr : list R)
  : result (list R) by wf (Z.to_nat (a1 - window_size + 1 - i)) lt :=
  run_corr_loop arr1 arr2 window_size a1 i run_corr_arr
    with inspect (i + window_size - 1 <? a1)%Z := {
    | exist _ true Hc =>
        let i_start := i in
        let i_end := (i + window_size - 1)%Z in
        match np.corrcoef (np.slice arr1 i_start i_end)
                          (np.slice arr2 i_start i_end) with
        | Ok corr =>
            match np.setitem run_corr_arr i corr with
            | Ok run_corr_arr' =>
                run_corr_loop arr1 arr2 window_size a1 (i + 1) run_corr_arr'
            | Raise e => Raise e
            end
        | Raise e => Raise e
        end
    | exist _ false _ => Ok run_corr_arr
  }.
Proof. apply Z.ltb_lt in Hc. lia. Qed.

Definition run_corr (arr1 arr2 : np.ndarray R) (window_size : Z)
  : result (np.ndarray R) :=
  if (1 <? np.ndim arr1)%nat
  then Raise (ValueError "Expected only 1D arrays for arr1")
  else if (1 <? np.ndim arr2)%nat
  then Raise (ValueError "Expected only 1D arrays for arr2")
  else
    a1 <- np.len arr1 ;;
    a2 <- np.len arr2 ;;
    if negb (a1 =? a2)%Z
    then Raise (ValueError "Array size mismatch. Pass similarly sized arrays")
    else
      let corr_size := (a1 - window_size + 1)%Z in
      run_corr_arr <- np.empty corr_size ;;
      run_corr_arr <-
        run_corr_loop (np.flat arr1) (np.flat arr2) window_size a1 0
                      run_corr_arr ;;
      Ok (np.array run_corr_arr).

(** *** [mann_kendall] (lines 191-208) *)

(** ["%d" % n] for a length [n]. *)
Definition format_d (n : nat) : string :=
  NilEmpty.string_of_uint (Nat.to_uint n).

Definition mann_kendall (data : np.ndarray float)
  : result (float * float) :=
  if (1 <? np.ndim data)%nat
  then Raise (ValueError ("Only 1D arrays expected "
                          ++ format_d (np.ndim data)
                          ++ " array was passed"))
  else
    n <- np.len data ;;
    let x := map fin (np.arange n) in
    r <- st.kendalltau kendall_pvalue x (np.flat data) ;;
    let '(tau_, p_) := r in
    Ok (tau_, p_).

End Library.

End statmisc.

(** ** Vocabulary of the properties *)

(** The two normalisations the specification gives for [autocorr]:
    [a' = (a - mean(a)) / (std(a) * len(a))] and
    [v' = (v - mean(v)) / std(v)]. *)
Definition norm_a (a : list R) : list R :=
  map (fun x => (x - np.mean a) / (np.std a * INR (length a))) a.

Definition norm_v (v : list R) : list R :=
  map (fun x => (x - np.mean v) / np.std v) v.

(** One sample of [siglev] as the caller gives it: the raw sequence, or
    its mean, standard deviation and count. *)
Inductive sample : Type :=
| Raw (x : np.ma.masked_array)
| Summary (bar std n : R).

Definition raw_arg (s : sample) : option np.ma.masked_array :=
  match s with Raw x => Some x | Summary _ _ _ => None end.
Definition bar_arg (s : sample) : option R :=
  match s with Raw _ => None | Summary bar _ _ => Some bar end.
Definition std_arg (s : sample) : option R :=
  match s with Raw _ => None | Summary _ std _ => Some std end.
Definition n_arg (s : sample) : option R :=
  match s with Raw _ => None | Summary _ _ n => Some n end.

(** The mean, standard deviation and count of a sample. *)
Definition sample_bar (s : sample) : R :=
  match s with Raw x => np.ma.mean x | Summary bar _ _ => bar end.
Definition sample_std (s : sample) : R :=
  match s with Raw x => np.ma.std x | Summary _ std _ => std end.
Definition sample_n (s : sample) : R :=
  match s with Raw x => np.size x | Summary _ _ n => n end.

(** The variance term of the t statistic, as the specification writes it. *)
Definition variance_term (pooled : bool) (sx nx sy ny : R) : R :=
  if pooled
  then ((nx - 1) * sx ^ 2 + (ny - 1) * sy ^ 2) / (nx + ny - 2)
       * ((nx + ny) / (nx * ny))
  else sx ^ 2 / nx + sy ^ 2 / ny.

(** One side of [siglev]'s arguments is well given: the raw sequence and no
    part of the triple, or no raw sequence and the whole triple. *)
Definition side_ok (raw : option np.ma.masked_array) (bar std n : option R)
  : bool :=
  match raw with
  | Some _ => negb (is_some bar || is_some std || is_some n)
  | None => is_some bar && is_some std && is_some n
  end.

(** The library calls [siglev] makes to summarise one side. *)
Definition summary_calls (raw : option np.ma.masked_array) : list call :=
  match raw with
  | Some x => [call_ma_mean x; call_ma_std x; call_size x]
  | None => []
  end.

(** The Student t distribution has closed forms at two degrees of freedom:
    [cdf(t) = 1/2 + t / (2 sqrt(2 + t^2))] and
    [ppf(q) = (2q - 1) / sqrt(2q(1 - q))].  The examples instantiate the
    library parameters with them, at [dof = 2]. *)
Definition t2_cdf (t dof : R) : R := 1 / 2 + t / (2 * sqrt (2 + t ^ 2)).
Definition t2_ppf (q dof : R) : R := (2 * q - 1) / sqrt (2 * q * (1 - q)).

(** * Properties *)

(** ** Lists, slices and item assignment *)

Section ListFacts.

Context {A : Type}.

Lemma update_length (l : list A) (i : nat) (v : A) :
  length (np.update l i v) = length l.
Proof.
  revert i; induction l as [|x l IH]; intros [|i]; simpl; auto.
Qed.

Lemma firstn_update_snoc (l : list A) (i : nat) (v : A) :
  (i < length l)%nat ->
  firstn (S i) (np.update l i v) = firstn i l ++ [v].
Proof.
  revert i; induction l as [|x l IH]; intros [|i] H; simpl in *; try lia.
  - reflexivity.
  - f_equal. apply IH. lia.
Qed.

Lemma setitem_in_range (l : list A) (i : Z) (v : A) :
  (0 <= i < Z.of_nat (length l))%Z ->
  np.setitem l i v = Ok (np.update l (Z.to_nat i) v).
Proof.
  intros H. unfold np.setitem.
  destruct (Z.ltb_spec i 0); [lia|].
  destruct (Z.leb_spec 0 i); [|lia].
  destruct (Z.ltb_spec i (Z.of_nat (length l))); [|lia].
  reflexivity.
Qed.

Lemma slice_in_range (l : list A) (lo hi : Z) :
  (0 <= lo <= hi)%Z -> (hi <= Z.of_nat (length l))%Z ->
  np.slice l lo hi = firstn (Z.to_nat (hi - lo)) (skipn (Z.to_nat lo) l).
Proof.
  intros H1 H2. unfold np.slice, np.slice_bound.
  destruct (Z.ltb_spec lo 0); [lia|].
  destruct (Z.ltb_spec hi 0); [lia|].
  rewrite !Z.min_l by lia. reflexivity.
Qed.

Lemma slice_length (l : list A) (lo hi : Z) :
  (0 <= lo <= hi)%Z -> (hi <= Z.of_nat (length l))%Z ->
  Z.of_nat (length (np.slice l lo hi)) = (hi - lo)%Z.
Proof.
  intros H1 H2. rewrite slice_in_range by assumption.
  rewrite length_firstn, length_skipn. lia.
Qed.

Lemma slice_length_eq {B : Type} (l : list A) (l' : list B) (lo hi : Z) :
  length l = length l' ->
  length (np.slice l lo hi) = length (np.slice l' lo hi).
Proof.
  intros H. unfold np.slice. rewrite !length_firstn, !length_skipn, H.
  reflexivity.
Qed.

Lemma slice_length_window (l : list A) (i w : Z) :
  (0 <= i)%Z -> (0 <= w)%Z -> (i + w <= Z.of_nat (length l))%Z ->
  Z.of_nat (length (np.slice l i (i + w))) = w.
Proof.
  intros. rewrite slice_length by lia. lia.
Qed.

End ListFacts.

Lemma zrange_length (i : Z) (m : nat) : length (np.zrange i m) = m.
Proof. revert i; induction m; intros; simpl; auto. Qed.

Lemma zrange_nth (i : Z) (m k : nat) :
  (k < m)%nat -> nth k (np.zrange i m) 0%Z = (i + Z.of_nat k)%Z.
Proof.
  revert i k; induction m as [|m IH]; intros i [|k] H; simpl; try lia.
  rewrite IH by lia. lia.
Qed.

(** ** [smooth_ts] *)

Section SmoothTs.

Import statmisc.

Lemma smooth_loop_step ts window n i out :
  (i + window <=? n)%Z = true ->
  smooth_loop ts window n i out =
  match np.setitem out i (np.mean (np.slice ts i (i + window))) with
  | Ok out' => smooth_loop ts window n (i + 1) out'
  | Raise e => Raise e
  end.
Proof.
  intros H. rewrite smooth_loop_equation_1.
  destruct (inspect _) as [[|] Hb]; [|congruence].
  now rewrite smooth_loop_clause_1_equation_1.
Qed.

Lemma smooth_loop_exit ts window n i out :
  (i + window <=? n)%Z = false ->
  smooth_loop ts window n i out = Ok out.
Proof.
  intros H. rewrite smooth_loop_equation_1.
  destruct (inspect _) as [[|] Hb]; [congruence|].
  now rewrite smooth_loop_clause_1_equation_2.
Qed.

(** The loop invariant: cells below [i] are final, and the loop fills the
    remaining [m] cells with the window means, in order. *)
Lemma smooth_loop_run ts window n (m : nat) :
  forall i out,
    (0 <= i)%Z ->
    Z.to_nat (n - window + 1 - i) = m ->
    Z.of_nat (length out) = (n - window + 1)%Z ->
    smooth_loop ts window n i out =
    Ok (firstn (Z.to_nat i) out ++
        map (fun k => np.mean (np.slice ts k (k + window))) (np.zrange i m)).
Proof.
  induction m as [|m IH]; intros i out Hi Hm Hlen.
  - rewrite smooth_loop_exit by (apply Z.leb_gt; lia).
    simpl. rewrite app_nil_r, firstn_all2 by lia. reflexivity.
  - rewrite smooth_loop_step by (apply Z.leb_le; lia).
    rewrite setitem_in_range by lia.
    rewrite IH; try lia.
    + replace (Z.to_nat (i + 1)) with (S (Z.to_nat i)) by lia.
      rewrite firstn_update_snoc by lia.
      simpl. rewrite <- app_assoc. reflexivity.
    + rewrite update_length. assumption.
Qed.

(** C4. For a 1-D series [ts] and [1 <= window <= len(ts)], [smooth_ts]
    returns the 1-D array of length [len(ts) - window + 1] whose [i]-th
    element is the arithmetic mean of [ts[i : i+window]], a slice of
    [window] elements, for [i = 0 .. len(ts) - window] in increasing
    order. *)
Theorem smooth_ts_moving_average (ts : list R) (window : Z) :
  (1 <= window <= Z.of_nat (length ts))%Z ->
  let ns := (Z.of_nat (length ts) - window + 1)%Z in
  let out := map (fun i => np.mean (np.slice ts i (i + window)))
                 (np.zrange 0 (Z.to_nat ns)) in
  smooth_ts (np.array ts) window = Ok (np.array out) /\
  Z.of_nat (length out) = ns /\
  forall i : nat, (Z.of_nat i < ns)%Z ->
    nth i out 0 = np.mean (np.slice ts (Z.of_nat i) (Z.of_nat i + window)) /\
    Z.of_nat (length (np.slice ts (Z.of_nat i) (Z.of_nat i + window))) = window.
Proof.
  intros Hw ns out. subst ns out. repeat split.
  - unfold smooth_ts. simpl.
    unfold np.empty.
    destruct (Z.ltb_spec (Z.of_nat (length ts) - window + 1) 0); [lia|].
    simpl.
    rewrite (smooth_loop_run ts window _
               (Z.to_nat (Z.of_nat (length ts) - window + 1))).
    + reflexivity.
    + lia.
    + f_equal. lia.
    + rewrite repeat_length. lia.
  - rewrite length_map, zrange_length. lia.
  - set (f := fun k => np.mean (np.slice ts k (k + window))).
    change (np.mean (np.slice ts (Z.of_nat i) (Z.of_nat i + window)))
      with (f (Z.of_nat i)).
    rewrite (nth_indep _ 0 (f 0%Z))
      by (rewrite length_map, zrange_length; lia).
    rewrite map_nth, zrange_nth by lia. reflexivity.
  - apply slice_length_window; lia.
Qed.

(** The example of the specification: [ts = [1,2,3,4,5]], [window = 2]. *)
Lemma smooth_ts_moving_average_example :
  (1 <= 2 <= Z.of_nat (length [1; 2; 3; 4; 5]))%Z /\
  smooth_ts (np.array [1; 2; 3; 4; 5]) 2 =
  Ok (np.array [3 / 2; 5 / 2; 7 / 2; 9 / 2]).
Proof.
  assert (H : (1 <= 2 <= Z.of_nat (length [1; 2; 3; 4; 5]))%Z)
    by (simpl; lia).
  split; [exact H|].
  destruct (smooth_ts_moving_average [1; 2; 3; 4; 5] 2 H) as [E _].
  rewrite E. cbv [np.array]. simpl.
  unfold np.mean, np.slice, np.slice_bound. simpl.
  repeat (f_equal; try lra).
Defined.

End SmoothTs.

(** ** [run_corr] *)

Section RunCorr.

Import statmisc.

Lemma run_corr_loop_step arr1 arr2 ws a1 i out :
  (i + ws - 1 <? a1)%Z = true ->
  run_corr_loop arr1 arr2 ws a1 i out =
  match np.corrcoef (np.slice arr1 i (i + ws - 1))
                    (np.slice arr2 i (i + ws - 1)) with
  | Ok corr =>
      match np.setitem out i corr with
      | Ok out' => run_corr_loop arr1 arr2 ws a1 (i + 1) out'
      | Raise e => Raise e
      end
  | Raise e => Raise e
  end.
Proof.
  intros H. rewrite run_corr_loop_equation_1.
  destruct (inspect _) as [[|] Hb]; [|congruence].
  now rewrite run_corr_loop_clause_1_equation_1.
Qed.

Lemma run_corr_loop_exit arr1 arr2 ws a1 i out :
  (i + ws - 1 <? a1)%Z = false ->
  run_corr_loop arr1 arr2 ws a1 i out = Ok out.
Proof.
  intros H. rewrite run_corr_loop_equation_1.
  destruct (inspect _) as [[|] Hb]; [congruence|].
  now rewrite run_corr_loop_clause_1_equation_2.
Qed.

(** Slices of two arrays of one length have one length, so [np.corrcoef]
    accepts them. *)
Lemma corrcoef_slices arr1 arr2 lo hi :
  length arr1 = length arr2 ->
  np.corrcoef (np.slice arr1 lo hi) (np.slice arr2 lo hi) =
  Ok (np.pearson (np.slice arr1 lo hi) (np.slice arr2 lo hi)).
Proof.
  intros H. unfold np.corrcoef.
  rewrite (slice_length_eq arr1 arr2 lo hi H), Nat.eqb_refl. reflexivity.
Qed.

Lemma run_corr_loop_run arr1 arr2 ws a1 (m : nat) :
  length arr1 = length arr2 ->
  forall i out,
    (0 <= i)%Z ->
    Z.to_nat (a1 - ws + 1 - i) = m ->
    Z.of_nat (length out) = (a1 - ws + 1)%Z ->
    run_corr_loop arr1 arr2 ws a1 i out =
    Ok (firstn (Z.to_nat i) out ++
        map (fun k => np.pearson (np.slice arr1 k (k + ws - 1))
                                 (np.slice arr2 k (k + ws - 1)))
            (np.zrange i m)).
Proof.
  intros Hlen.
  induction m as [|m IH]; intros i out Hi Hm Hout.
  - rewrite run_corr_loop_exit by (apply Z.ltb_ge; lia).
    simpl. rewrite app_nil_r, firstn_all2 by lia. reflexivity.
  - rewrite run_corr_loop_step by (apply Z.ltb_lt; lia).
    rewrite corrcoef_slices by assumption.
    rewrite setitem_in_range by lia.
    rewrite IH; try lia.
    + replace (Z.to_nat (i + 1)) with (S (Z.to_nat i)) by lia.
      rewrite firstn_update_snoc by lia.
      simpl. rewrite <- app_assoc. reflexivity.
    + rewrite update_length. assumption.
Qed.

(** C1. For two 1-D arrays of one length and [1 <= window_size <= len],
    [run_corr] returns an array of length [len - window_size + 1] whose
    [i]-th element is the Pearson correlation coefficient of the slices
    [arr1[i : i+window_size-1]] and [arr2[i : i+window_size-1]]; each
    slice has [window_size - 1] elements, and the windows are taken in
    increasing order of [i]. *)
Theorem run_corr_windows (arr1 arr2 : list R) (window_size : Z) :
  length arr1 = length arr2 ->
  (1 <= window_size <= Z.of_nat (length arr1))%Z ->
  let corr_size := (Z.of_nat (length arr1) - window_size + 1)%Z in
  let window (arr : list R) (i : Z) := np.slice arr i (i + window_size - 1) in
  let out := map (fun i => np.pearson (window arr1 i) (window arr2 i))
                 (np.zrange 0 (Z.to_nat corr_size)) in
  run_corr (np.array arr1) (np.array arr2) window_size = Ok (np.array out) /\
  Z.of_nat (length out) = corr_size /\
  forall i : nat, (Z.of_nat i < corr_size)%Z ->
    np.corrcoef (window arr1 (Z.of_nat i)) (window arr2 (Z.of_nat i))
      = Ok (nth i out 0) /\
    Z.of_nat (length (window arr1 (Z.of_nat i))) = (window_size - 1)%Z /\
    Z.of_nat (length (window arr2 (Z.of_nat i))) = (window_size - 1)%Z.
Proof.
  intros Hlen Hw corr_size window out. subst corr_size window out.
  split; [|split; [|intros i Hi; split; [|split]]].
  - unfold run_corr. simpl.
    rewrite <- Hlen, Z.eqb_refl. simpl.
    unfold np.empty.
    destruct (Z.ltb_spec (Z.of_nat (length arr1) - window_size + 1) 0);
      [lia|].
    simpl.
    rewrite (run_corr_loop_run arr1 arr2 window_size _
               (Z.to_nat (Z.of_nat (length arr1) - window_size + 1)) Hlen).
    + reflexivity.
    + lia.
    + f_equal. lia.
    + rewrite repeat_length. lia.
  - rewrite length_map, zrange_length. lia.
  - rewrite corrcoef_slices by assumption. f_equal.
    set (f := fun k => np.pearson (np.slice arr1 k (k + window_size - 1))
                                  (np.slice arr2 k (k + window_size - 1))).
    rewrite (nth_indep _ 0 (f 0%Z))
      by (rewrite length_map, zrange_length; lia).
    rewrite map_nth, zrange_nth by lia. reflexivity.
  - rewrite slice_length by lia. lia.
  - rewrite slice_length by lia. lia.
Qed.

(** Two series of four points, windows of size three: two coefficients,
    each over a slice of two points. *)
Lemma run_corr_windows_example :
  let arr1 := [1; 2; 4; 8] in
  let arr2 := [3; 1; 4; 1] in
  run_corr (np.array arr1) (np.array arr2) 3 =
  Ok (np.array [np.pearson [1; 2] [3; 1]; np.pearson [2; 4] [1; 4]]).
Proof.
  intros arr1 arr2.
  assert (Hlen : length arr1 = length arr2) by reflexivity.
  assert (Hw : (1 <= 3 <= Z.of_nat (length arr1))%Z) by (simpl; lia).
  destruct (run_corr_windows arr1 arr2 3 Hlen Hw) as [E _].
  exact E.
Defined.

End RunCorr.

(** ** [autocorr] *)

Section Autocorr.

Import statmisc.

Lemma correlate_full_length (a v : list R) :
  length (np.correlate_full a v) = (length a + length v - 1)%nat.
Proof.
  unfold np.correlate_full. rewrite length_map. apply zrange_length.
Qed.

Lemma correlate_full_nth (a v : list R) (k : nat) :
  (k < length a + length v - 1)%nat ->
  nth k (np.correlate_full a v) 0 =
  np.sum (map (fun n => np.padded a (Z.of_nat n + Z.of_nat k
                                       - (Z.of_nat (length v) - 1))
                        * nth n v 0)
              (seq 0 (length v))).
Proof.
  intros Hk. unfold np.correlate_full.
  set (f := fun k : Z => np.sum _).
  rewrite (nth_indep _ 0 (f 0%Z))
    by (rewrite length_map, zrange_length; lia).
  rewrite map_nth, zrange_nth by lia. subst f. cbv beta.
  f_equal. apply map_ext. intros n. do 2 f_equal. lia.
Qed.

Lemma norm_a_length (a : list R) : length (norm_a a) = length a.
Proof. apply length_map. Qed.

Lemma norm_v_length (v : list R) : length (norm_v v) = length v.
Proof. apply length_map. Qed.

Lemma autocorr_1d (a v : list R) :
  autocorr (np.array a) (np.array v) =
  np.correlate (np.array (norm_a a)) (np.array (norm_v v)).
Proof.
  unfold autocorr, norm_a, norm_v, np.array, np.map_array. simpl.
  rewrite <- INR_IZR_INZ.
  unfold np.correlate. simpl.
  destruct a, v; reflexivity.
Qed.

(** C5 (as amended).  For 1-D [a] and [v], [autocorr(a, v)] is
    [np.correlate(a', v', mode='full')] with
    [a' = (a - mean(a)) / (std(a) * len(a))] and
    [v' = (v - mean(v)) / std(v)]; when neither is empty the result is
    the sequence [c_k = sum_n a'[n+k] * v'[n]] of length
    [len(a) + len(v) - 1].  For an input of more than one dimension
    [autocorr] raises [ValueError]. *)
Theorem autocorr_full_correlation :
  (forall a v : list R,
      autocorr (np.array a) (np.array v) =
      np.correlate (np.array (norm_a a)) (np.array (norm_v v))) /\
  (forall a v : list R, a <> [] -> v <> [] ->
      exists corr,
        autocorr (np.array a) (np.array v) = Ok (np.array corr) /\
        length corr = (length a + length v - 1)%nat /\
        forall k, (k < length corr)%nat ->
          nth k corr 0 =
          np.sum (map (fun n =>
                         np.padded (norm_a a)
                           (Z.of_nat n + Z.of_nat k
                            - (Z.of_nat (length v) - 1))
                         * nth n (norm_v v) 0)
                      (seq 0 (length v)))) /\
  (forall a v : np.ndarray R,
      (1 < np.ndim a)%nat \/ (1 < np.ndim v)%nat ->
      exists msg, autocorr a v = Raise (ValueError msg)).
Proof.
  split; [exact autocorr_1d|split].
  - intros a v Ha Hv.
    exists (np.correlate_full (norm_a a) (norm_v v)). split; [|split].
    + rewrite autocorr_1d. unfold np.correlate, norm_a, norm_v. simpl.
      destruct a as [|x a]; [congruence|].
      destruct v as [|y v]; [congruence|]. reflexivity.
    + rewrite correlate_full_length, norm_a_length, norm_v_length.
      reflexivity.
    + intros k Hk. rewrite correlate_full_length in Hk.
      rewrite correlate_full_nth by assumption.
      rewrite norm_v_length. reflexivity.
  - intros a v H. unfold autocorr.
    destruct (Nat.ltb_spec 1 (np.ndim a)); [eauto|].
    destruct (Nat.ltb_spec 1 (np.ndim v)); [eauto|]. lia.
Qed.

End Autocorr.

(** ** [siglev] *)

Section Siglev.

Import statmisc.

Variable t_cdf : R -> R -> R.

Lemma denom_variance_term (pooled : bool) (sx nx sy ny : R) :
  (if pooled
   then ((nx - 1) * sx ^ 2 + (ny - 1) * sy ^ 2) / (nx + ny - 2)
        * (nx + ny) / (nx * ny)
   else sx ^ 2 / nx + sy ^ 2 / ny)
  = variance_term pooled sx nx sy ny.
Proof.
  unfold variance_term, Rdiv. destruct pooled; ring.
Qed.

(** What [siglev] returns on well-given arguments, as it computes it. *)
Lemma siglev_value (X Y : sample) (pooled : bool) :
  snd (siglev t_cdf (raw_arg X) (raw_arg Y) (bar_arg X) (bar_arg Y)
         (std_arg X) (std_arg Y) (n_arg X) (n_arg Y) pooled)
  = Ok ((1 - (1 - t_cdf
                     (Rabs (sample_bar X - sample_bar Y)
                      / sqrt
                          (if pooled
                           then ((sample_n X - 1) * sample_std X ^ 2
                                 + (sample_n Y - 1) * sample_std Y ^ 2)
                                / (sample_n X + sample_n Y - 2)
                                * (sample_n X + sample_n Y)
                                / (sample_n X * sample_n Y)
                           else sample_std X ^ 2 / sample_n X
                                + sample_std Y ^ 2 / sample_n Y))
                     (sample_n X + sample_n Y - 2)) * 2) * 100).
Proof.
  destruct X, Y; reflexivity.
Qed.

(** C2. In each input mode (either side a raw sequence or a triple of
    mean, standard deviation and count) [siglev] returns
    [100 * (1 - 2 * (1 - CDF_t(t, dof)))] with [dof = nx + ny - 2],
    [t = |xbar - ybar| / sqrt(denom)], and [denom] the pooled variance
    term when [pooled] and [sx^2/nx + sy^2/ny] otherwise. *)
Theorem siglev_formula (X Y : sample) (pooled : bool) :
  let xbar := sample_bar X in
  let sx := sample_std X in
  let nx := sample_n X in
  let ybar := sample_bar Y in
  let sy := sample_std Y in
  let ny := sample_n Y in
  let dof := nx + ny - 2 in
  let denom :=
    if pooled
    then ((nx - 1) * sx ^ 2 + (ny - 1) * sy ^ 2) / (nx + ny - 2)
         * ((nx + ny) / (nx * ny))
    else sx ^ 2 / nx + sy ^ 2 / ny in
  let t := Rabs (xbar - ybar) / sqrt denom in
  snd (siglev t_cdf (raw_arg X) (raw_arg Y) (bar_arg X) (bar_arg Y)
         (std_arg X) (std_arg Y) (n_arg X) (n_arg Y) pooled)
  = Ok (100 * (1 - 2 * (1 - t_cdf t dof))).
Proof.
  cbv zeta. rewrite siglev_value, denom_variance_term.
  f_equal. unfold variance_term. ring.
Qed.

(** C3. [siglev] on the raw sequences [x] and [y] returns the value it
    returns on their precomputed summaries: the masked-array mean and
    standard deviation and the size of each. *)
Theorem siglev_raw_eq_summary (x y : np.ma.masked_array) (pooled : bool) :
  snd (siglev t_cdf (Some x) (Some y) None None None None None None pooled)
  = snd (siglev t_cdf None None
           (Some (np.ma.mean x)) (Some (np.ma.mean y))
           (Some (np.ma.std x)) (Some (np.ma.std y))
           (Some (np.size x)) (Some (np.size y)) pooled)
  /\ exists clevm,
    snd (siglev t_cdf (Some x) (Some y) None None None None None None pooled)
    = Ok clevm.
Proof.
  split; [reflexivity|].
  pose proof (siglev_value (Raw x) (Raw y) pooled) as H.
  simpl raw_arg in H. simpl bar_arg in H.
  simpl std_arg in H. simpl n_arg in H. eauto.
Qed.

(** C8 (as amended).  When a side is given both ways, or neither way
    completely, [siglev] raises [SystemError] before the t statistic or
    any statistic of that side is computed; the only statistics computed
    by then are the mean, standard deviation and size of a raw [x],
    when the [x] side is well given and the [y] side is not. *)
Theorem siglev_rejects_bad_arguments
    (x y : option np.ma.masked_array) (xbar ybar xstd ystd nx ny : option R)
    (pooled : bool) :
  side_ok x xbar xstd nx = false \/ side_ok y ybar ystd ny = false ->
  exists msg,
    snd (siglev t_cdf x y xbar ybar xstd ystd nx ny pooled)
      = Raise (SystemError msg) /\
    fst (siglev t_cdf x y xbar ybar xstd ystd nx ny pooled)
      = if side_ok x xbar xstd nx then summary_calls x else [].
Proof.
  intros H.
  destruct x, xbar, xstd, nx; simpl in H;
    try (eexists; split; reflexivity);
    (destruct H as [H|H]; [discriminate|]);
    destruct y, ybar, ystd, ny; simpl in H; try discriminate;
    eexists; split; reflexivity.
Qed.

End Siglev.

(** A raw [x] together with [xbar]: rejected before anything is computed. *)
Lemma siglev_rejects_bad_arguments_example :
  let x := [(1, false); (2, false)] in
  side_ok (Some x) (Some 3) None None = false /\
  exists msg,
    snd (statmisc.siglev t2_cdf (Some x) None (Some 3) None None None None None
           false) = Raise (SystemError msg) /\
    fst (statmisc.siglev t2_cdf (Some x) None (Some 3) None None None None None
           false) = [].
Proof.
  intros x. split; [reflexivity|].
  exact (siglev_rejects_bad_arguments t2_cdf (Some x) None (Some 3) None None
           None None None false (or_introl eq_refl)).
Defined.

(** A raw [x] and no [y] at all: [siglev] raises, but only after it has
    computed the mean, the standard deviation and the size of [x]. *)
Lemma siglev_summarises_x_before_rejecting_y :
  let x := [(1, false); (2, false)] in
  ~ exists t_cdf,
      fst (statmisc.siglev t_cdf (Some x) None None None None None None None
             false) = [].
Proof.
  intros x [t_cdf H]. simpl in H. discriminate H.
Qed.

(** ** [cnfint] *)

Section Cnfint.

Import statmisc.

Variable t_ppf : R -> R -> R.

(** C10. Every [tail] other than [1] selects the two-tailed effective
    level [1 - (1 - clev)/2], so the width is that of [tail = 2]; only
    [tail = 1] selects the level [clev]. *)
Theorem cnfint_tail_not_1 (xstd nx clev : R) (tail : Z) :
  tail <> 1%Z ->
  cnfint t_ppf xstd nx clev tail
    = t_ppf (1 - (1 - clev) / 2) (nx - 1) * (xstd / sqrt nx) /\
  cnfint t_ppf xstd nx clev tail = cnfint t_ppf xstd nx clev 2 /\
  cnfint t_ppf xstd nx clev 1 = t_ppf clev (nx - 1) * (xstd / sqrt nx).
Proof.
  intros H. unfold cnfint.
  destruct (Z.eqb_spec tail 1); [contradiction|].
  repeat split; reflexivity.
Qed.

Lemma two_tailed_level (clev : R) :
  0 < clev < 1 -> clev < 1 - (1 - clev) / 2 < 1.
Proof. intros H. lra. Qed.

(** C6 (as amended).  For a standard deviation [xstd >= 0], a count
    [nx > 0] and a level [0 < clev < 1], when the t quantile function
    at [nx - 1] degrees of freedom is strictly increasing on the open
    unit interval, the two-tailed width is at least the one-tailed
    width, and the two differ exactly when [xstd] is not zero. *)
Theorem cnfint_two_tailed_wider (xstd nx clev : R) :
  (forall p q, 0 < p -> p < q -> q < 1 ->
               t_ppf p (nx - 1) < t_ppf q (nx - 1)) ->
  0 <= xstd -> 0 < nx -> 0 < clev < 1 ->
  cnfint t_ppf xstd nx clev 2 >= cnfint t_ppf xstd nx clev 1 /\
  (cnfint t_ppf xstd nx clev 2 <> cnfint t_ppf xstd nx clev 1
   <-> xstd <> 0).
Proof.
  intros Hmono Hstd Hnx Hclev. unfold cnfint. simpl.
  pose proof (two_tailed_level clev Hclev) as Hl.
  assert (Ht : t_ppf clev (nx - 1) < t_ppf (1 - (1 - clev) / 2) (nx - 1))
    by (apply Hmono; lra).
  assert (Hs : 0 < / sqrt nx)
    by (apply Rinv_0_lt_compat, sqrt_lt_R0; assumption).
  set (a := t_ppf clev (nx - 1)) in *.
  set (b := t_ppf (1 - (1 - clev) / 2) (nx - 1)) in *.
  unfold Rdiv.
  set (s := / sqrt nx) in *.
  assert (Hw : 0 <= xstd * s) by (apply Rmult_le_pos; lra).
  split.
  - apply Rle_ge, Rmult_le_compat_r; lra.
  - split.
    + intros Hne H0. apply Hne. subst xstd. ring.
    + intros Hne Heq.
      assert (Hpos : 0 < xstd * s) by (apply Rmult_lt_0_compat; lra).
      apply Rmult_eq_reg_r in Heq; lra.
Qed.

End Cnfint.

(** The two closed forms are inverse to each other on the open unit
    interval. *)
Lemma t2_cdf_ppf (q dof : R) : 0 < q < 1 -> t2_cdf (t2_ppf q dof) dof = q.
Proof.
  intros Hq. unfold t2_cdf, t2_ppf.
  assert (Hg : 0 < 2 * q * (1 - q)) by nra.
  pose proof (sqrt_lt_R0 _ Hg) as Hs.
  pose proof (sqrt_sqrt _ (Rlt_le _ _ Hg)) as Es.
  set (s := sqrt (2 * q * (1 - q))) in *.
  assert (Hroot : sqrt (2 + ((2 * q - 1) / s) ^ 2) = / s).
  { apply sqrt_lem_1.
    - assert (0 <= ((2 * q - 1) / s) ^ 2) by (apply pow2_ge_0). lra.
    - apply Rlt_le, Rinv_0_lt_compat, Hs.
    - replace (2 + ((2 * q - 1) / s) ^ 2)
        with ((2 * (s * s) + (2 * q - 1) ^ 2) * (/ s * / s))
        by (field; lra).
      rewrite Es.
      replace (2 * (2 * q * (1 - q)) + (2 * q - 1) ^ 2) with 1 by ring.
      ring. }
  rewrite Hroot. field. lra.
Qed.

(** The quantile function of the t distribution at two degrees of freedom
    is strictly increasing on the open unit interval. *)
Lemma t2_ppf_increasing (p q dof : R) :
  0 < p -> p < q -> q < 1 -> t2_ppf p dof < t2_ppf q dof.
Proof.
  intros Hp Hpq Hq. unfold t2_ppf.
  assert (Hgp : 0 < 2 * p * (1 - p)) by nra.
  assert (Hgq : 0 < 2 * q * (1 - q)) by nra.
  pose proof (sqrt_lt_R0 _ Hgp) as Hsp.
  pose proof (sqrt_lt_R0 _ Hgq) as Hsq.
  pose proof (sqrt_sqrt _ (Rlt_le _ _ Hgp)) as Ep.
  pose proof (sqrt_sqrt _ (Rlt_le _ _ Hgq)) as Eq.
  set (sp := sqrt (2 * p * (1 - p))) in *.
  set (sq := sqrt (2 * q * (1 - q))) in *.
  assert (Hcross : (2 * p - 1) * sq < (2 * q - 1) * sp).
  { destruct (Rle_or_lt (1 / 2) p) as [Hhalf|Hhalf].
    - (* both at or above the median *)
      apply Rsqr_incrst_0; try nra.
      unfold Rsqr.
      replace ((2 * p - 1) * sq * ((2 * p - 1) * sq))
        with ((2 * p - 1) * (2 * p - 1) * (sq * sq)) by ring.
      replace ((2 * q - 1) * sp * ((2 * q - 1) * sp))
        with ((2 * q - 1) * (2 * q - 1) * (sp * sp)) by ring.
      rewrite Ep, Eq. nra.
    - destruct (Rle_or_lt (1 / 2) q) as [Hq2|Hq2].
      + (* the median lies between them *)
        assert ((2 * p - 1) * sq < 0) by nra.
        assert (0 <= (2 * q - 1) * sp) by nra. lra.
      + (* both below the median *)
        assert (H : (1 - 2 * q) * sp < (1 - 2 * p) * sq).
        { apply Rsqr_incrst_0; try nra.
          unfold Rsqr.
          replace ((1 - 2 * q) * sp * ((1 - 2 * q) * sp))
            with ((1 - 2 * q) * (1 - 2 * q) * (sp * sp)) by ring.
          replace ((1 - 2 * p) * sq * ((1 - 2 * p) * sq))
            with ((1 - 2 * p) * (1 - 2 * p) * (sq * sq)) by ring.
          rewrite Ep, Eq. nra. }
        lra. }
  replace ((2 * p - 1) / sp) with ((2 * p - 1) * sq * / (sp * sq))
    by (field; lra).
  replace ((2 * q - 1) / sq) with ((2 * q - 1) * sp * / (sp * sq))
    by (field; lra).
  apply Rmult_lt_compat_r; [|assumption].
  apply Rinv_0_lt_compat, Rmult_lt_0_compat; assumption.
Qed.

(** The t quantiles at two degrees of freedom; one standard deviation over
    three members, at the 95% level. *)
Lemma cnfint_two_tailed_wider_example :
  (0 <= 1 /\ 0 < 3 /\ 0 < 95 / 100 < 1) /\
  statmisc.cnfint t2_ppf 1 3 (95 / 100) 2
    >= statmisc.cnfint t2_ppf 1 3 (95 / 100) 1 /\
  (statmisc.cnfint t2_ppf 1 3 (95 / 100) 2
     <> statmisc.cnfint t2_ppf 1 3 (95 / 100) 1 <-> 1 <> 0).
Proof.
  assert (H : 0 <= 1 /\ 0 < 3 /\ 0 < 95 / 100 < 1) by lra.
  split; [exact H|].
  destruct H as (H1 & H2 & H3).
  exact (cnfint_two_tailed_wider t2_ppf 1 3 (95 / 100)
           (fun p q => t2_ppf_increasing p q (3 - 1)) H1 H2 H3).
Defined.

(** A zero standard deviation: both widths are zero, whatever the quantile
    function is. *)
Lemma cnfint_zero_std_same_width :
  95 / 100 < 1 /\
  ~ exists t_ppf,
      statmisc.cnfint t_ppf 0 5 (95 / 100) 2
      <> statmisc.cnfint t_ppf 0 5 (95 / 100) 1.
Proof.
  split; [lra|].
  intros [t_ppf H]. apply H. unfold statmisc.cnfint, Rdiv. simpl. ring.
Qed.

(** [tail = 3] is read as two-tailed. *)
Lemma cnfint_tail_not_1_example :
  3%Z <> 1%Z /\
  statmisc.cnfint t2_ppf 1 3 (95 / 100) 3
    = statmisc.cnfint t2_ppf 1 3 (95 / 100) 2.
Proof.
  assert (H : 3%Z <> 1%Z) by discriminate.
  split; [exact H|].
  exact (proj1 (proj2 (cnfint_tail_not_1 t2_ppf 1 3 (95 / 100) 3 H))).
Defined.

(** On an empty first array [np.correlate] raises, and so does
    [autocorr]: there is no result of length [0 + 3 - 1]. *)
Lemma autocorr_empty_raises :
  statmisc.autocorr (np.array []) (np.array [1; 2; 3])
    = Raise (ValueError "first array argument cannot be empty") /\
  ~ exists corr,
      statmisc.autocorr (np.array []) (np.array [1; 2; 3]) = Ok corr.
Proof.
  split; [reflexivity|]. intros [corr H]. discriminate H.
Qed.

(** Two points against three: four lags; a 2-D first argument: rejected. *)
Lemma autocorr_full_correlation_example :
  (exists corr,
      statmisc.autocorr (np.array [1; 2]) (np.array [1; 2; 4])
        = Ok (np.array corr) /\
      length corr = 4%nat) /\
  (exists msg,
      statmisc.autocorr (np.mk_ndarray [2; 2]%nat [1; 2; 3; 4]) (np.array [1])
        = Raise (ValueError msg)).
Proof.
  destruct autocorr_full_correlation as (_ & Hfull & Hdim).
  split.
  - destruct (Hfull [1; 2] [1; 2; 4]) as (corr & E & Hlen & _);
      [discriminate|discriminate|].
    exists corr. split; [exact E|exact Hlen].
  - apply Hdim. left. unfold np.ndim. simpl. lia.
Defined.

(** ** [mann_kendall] *)

Section CountPairs.

Context {A : Type} (before : A -> A -> Prop) (p : A -> A -> bool).


Lemma filter_all (a : A) (l : list A) :
  Forall (before a) l -> (forall b, before a b -> p a b = true) ->
  filter (p a) l = l.
Proof.
  intros H Hp. induction H as [|b l Hb _ IH]; simpl; [reflexivity|].
  rewrite (Hp b Hb). f_equal. exact IH.
Qed.


(** Every pair in list order satisfies [p]. *)
Lemma count_pairs_all (l : list A) :
  StronglySorted before l ->
  (forall a b, before a b -> p a b = true) ->
  st.count_pairs p l = (length l * (length l - 1) / 2)%nat.
Proof.
  intros H Hp.
  assert (E : (2 * st.count_pairs p l = length l * (length l - 1))%nat).
  { induction H as [|a l _ IH Ha]; simpl st.count_pairs; [reflexivity|].
    rewrite (filter_all a l Ha (Hp a)). simpl length. nia. }
  rewrite <- E, Nat.mul_comm, Nat.div_mul by discriminate. reflexivity.
Qed.

End CountPairs.

Section MannKendall.

Import statmisc.

Variable kendall_pvalue : list R -> list R -> float.

Lemma arange_length (n : nat) : length (np.arange (Z.of_nat n)) = n.
Proof.
  unfold np.arange. rewrite length_map, zrange_length. lia.
Qed.

Lemma existsb_isnan_fin (l : list R) :
  existsb st.isnan (map fin l) = false.
Proof. induction l; simpl; auto. Qed.


Lemma map_value_fin (l : list R) : map st.value (map fin l) = l.
Proof. rewrite map_map. apply map_id. Qed.




Lemma Forall_combine {A B : Type} (P : A -> Prop) (Q : B -> Prop)
    (xs : list A) (ys : list B) :
  Forall P xs -> Forall Q ys ->
  Forall (fun b => P (fst b) /\ Q (snd b)) (combine xs ys).
Proof.
  intros HP. revert ys. induction HP as [|x xs Hx _ IH]; intros ys HQ.
  - constructor.
  - destruct HQ as [|y ys Hy HQ]; simpl; constructor; auto.
Qed.

(** Pairing two sorted sequences: every earlier pair is below every later
    pair, in both coordinates. *)
Lemma StronglySorted_combine {A B : Type} (RA : A -> A -> Prop)
    (RB : B -> B -> Prop) (xs : list A) (ys : list B) :
  StronglySorted RA xs -> StronglySorted RB ys ->
  StronglySorted (fun a b => RA (fst a) (fst b) /\ RB (snd a) (snd b))
                 (combine xs ys).
Proof.
  intros HA. revert ys. induction HA as [|x xs _ IH Hx]; intros ys HB.
  - constructor.
  - destruct HB as [|y ys HB Hy]; simpl; constructor.
    + apply IH. exact HB.
    + apply Forall_combine; assumption.
Qed.








Lemma mann_kendall_1d (data : list float) :
  mann_kendall kendall_pvalue (np.array data)
  = st.kendalltau kendall_pvalue
      (map fin (np.arange (Z.of_nat (length data)))) data.
Proof.
  unfold mann_kendall. simpl.
  destruct (st.kendalltau _ _ _) as [[tau p]|e]; reflexivity.
Qed.


End MannKendall.




(** * Further properties *)

(** ** Windows of any size *)

Section AnyWindow.

Import statmisc.

(** [smooth_ts] on a 1-D series, for every window that leaves a
    non-negative number of cells. *)
Lemma smooth_ts_run (ts : list R) (window : Z) :
  (window <= Z.of_nat (length ts) + 1)%Z ->
  smooth_ts (np.array ts) window =
  Ok (np.array
        (map (fun i => np.mean (np.slice ts i (i + window)))
             (np.zrange 0 (Z.to_nat (Z.of_nat (length ts) - window + 1))))).
Proof.
  intros Hw. unfold smooth_ts. simpl. unfold np.empty.
  destruct (Z.ltb_spec (Z.of_nat (length ts) - window + 1) 0); [lia|].
  simpl.
  rewrite (smooth_loop_run ts window _
             (Z.to_nat (Z.of_nat (length ts) - window + 1))).
  - reflexivity.
  - lia.
  - f_equal. lia.
  - rewrite repeat_length. lia.
Qed.

Lemma empty_negative (n : Z) :
  (n < 0)%Z ->
  np.empty n = Raise (ValueError "negative dimensions are not allowed").
Proof.
  intros H. unfold np.empty. destruct (Z.ltb_spec n 0); [reflexivity|lia].
Qed.

(** [smooth_ts] does not check [window] against the series: a window of
    at most [len(ts) + 1], zero and negative ones included, gives
    [len(ts) - window + 1] cells (none for [len(ts) + 1], more than
    [len(ts)] for [window <= 0]); a larger window makes [np.empty] raise
    [ValueError]. *)
Theorem smooth_ts_any_window (ts : list R) (window : Z) :
  ((window <= Z.of_nat (length ts) + 1)%Z ->
   exists out,
     smooth_ts (np.array ts) window = Ok (np.array out) /\
     Z.of_nat (length out) = (Z.of_nat (length ts) - window + 1)%Z) /\
  ((Z.of_nat (length ts) + 1 < window)%Z ->
   smooth_ts (np.array ts) window
   = Raise (ValueError "negative dimensions are not allowed")).
Proof.
  split; intros Hw.
  - eexists. split; [apply smooth_ts_run; exact Hw|].
    rewrite length_map, zrange_length. lia.
  - unfold smooth_ts. simpl. rewrite empty_negative by lia. reflexivity.
Qed.

End AnyWindow.

(** Three points: a window of zero gives four cells, a window of five
    raises. *)
Lemma smooth_ts_any_window_example :
  (exists out,
      statmisc.smooth_ts (np.array [1; 2; 3]) 0 = Ok (np.array out) /\
      Z.of_nat (length out) = 4%Z) /\
  statmisc.smooth_ts (np.array [1; 2; 3]) 5
  = Raise (ValueError "negative dimensions are not allowed").
Proof.
  split.
  - apply (proj1 (smooth_ts_any_window [1; 2; 3] 0)). simpl. lia.
  - apply (proj2 (smooth_ts_any_window [1; 2; 3] 5)). simpl. lia.
Defined.

(** ** What smoothing keeps *)

Section SmoothingFacts.

Import statmisc.

Lemma firstn_1_skipn {A : Type} (l : list A) (k : nat) (d : A) :
  (k < length l)%nat -> firstn 1 (skipn k l) = [nth k l d].
Proof.
  revert k. induction l as [|x l IH]; intros [|k] H; simpl in *; try lia.
  - reflexivity.
  - apply IH. lia.
Qed.

Lemma mean_singleton (x : R) : np.mean [x] = x.
Proof. unfold np.mean. simpl. field. Qed.







(** A window of one cell leaves the series as it is, the empty series
    included. *)
Theorem smooth_ts_window_1 (ts : list R) :
  smooth_ts (np.array ts) 1 = Ok (np.array ts).
Proof.
  rewrite smooth_ts_run by lia. do 2 f_equal.
  replace (Z.to_nat (Z.of_nat (length ts) - 1 + 1)) with (length ts) by lia.
  apply (nth_ext _ _ 0 0).
  - rewrite length_map, zrange_length. reflexivity.
  - intros k Hk. rewrite length_map, zrange_length in Hk.
    set (f := fun i : Z => np.mean (np.slice ts i (i + 1))).
    rewrite (nth_indep _ 0 (f 0%Z))
      by (rewrite length_map, zrange_length; exact Hk).
    rewrite map_nth, zrange_nth by exact Hk. subst f. cbv beta.
    rewrite slice_in_range by lia.
    replace (Z.to_nat (0 + Z.of_nat k + 1 - (0 + Z.of_nat k))) with 1%nat
      by lia.
    replace (Z.to_nat (0 + Z.of_nat k)) with k by lia.
    rewrite (firstn_1_skipn ts k 0 Hk). apply mean_singleton.
Qed.

(** A window as long as the series gives one cell, the mean of the whole
    series. *)
Theorem smooth_ts_whole_series (ts : list R) :
  ts <> [] ->
  smooth_ts (np.array ts) (Z.of_nat (length ts))
  = Ok (np.array [np.mean ts]).
Proof.
  intros Hne.
  assert (Hlen : (0 < length ts)%nat)
    by (destruct ts; [congruence|simpl; lia]).
  rewrite smooth_ts_run by lia. do 2 f_equal.
  replace (Z.to_nat (Z.of_nat (length ts) - Z.of_nat (length ts) + 1))
    with 1%nat by lia.
  simpl. do 2 f_equal.
  rewrite slice_in_range by lia.
  rewrite firstn_all2 by (rewrite length_skipn; lia).
  reflexivity.
Qed.


End SmoothingFacts.

Lemma smooth_ts_whole_series_example :
  [1; 2; 6] <> [] /\
  statmisc.smooth_ts (np.array [1; 2; 6]) (Z.of_nat (length [1; 2; 6]))
  = Ok (np.array [np.mean [1; 2; 6]]).
Proof.
  assert (H : [1; 2; 6] <> []) by discriminate.
  split; [exact H|exact (smooth_ts_whole_series [1; 2; 6] H)].
Defined.


(** ** What the running correlation reads *)

Section RunCorrFacts.

Import statmisc.

(** [run_corr] on two 1-D arrays of one length, for every window size that
    leaves a non-negative number of cells. *)
Lemma run_corr_run (arr1 arr2 : list R) (ws : Z) :
  length arr1 = length arr2 ->
  (ws <= Z.of_nat (length arr1) + 1)%Z ->
  run_corr (np.array arr1) (np.array arr2) ws =
  Ok (np.array
        (map (fun i => np.pearson (np.slice arr1 i (i + ws - 1))
                                  (np.slice arr2 i (i + ws - 1)))
             (np.zrange 0 (Z.to_nat (Z.of_nat (length arr1) - ws + 1))))).
Proof.
  intros Hlen Hw. unfold run_corr. simpl.
  rewrite <- Hlen, Z.eqb_refl. simpl. unfold np.empty.
  destruct (Z.ltb_spec (Z.of_nat (length arr1) - ws + 1) 0); [lia|].
  simpl.
  rewrite (run_corr_loop_run arr1 arr2 ws _
             (Z.to_nat (Z.of_nat (length arr1) - ws + 1)) Hlen).
  - reflexivity.
  - lia.
  - f_equal. lia.
  - rewrite repeat_length. lia.
Qed.

Lemma run_corr_too_large (arr1 arr2 : list R) (ws : Z) :
  length arr1 = length arr2 ->
  (Z.of_nat (length arr1) + 1 < ws)%Z ->
  run_corr (np.array arr1) (np.array arr2) ws
  = Raise (ValueError "negative dimensions are not allowed").
Proof.
  intros Hlen Hw. unfold run_corr. simpl.
  rewrite <- Hlen, Z.eqb_refl. simpl.
  rewrite empty_negative by lia. reflexivity.
Qed.

Lemma run_corr_mismatch (arr1 arr2 : list R) (ws : Z) :
  length arr1 <> length arr2 ->
  run_corr (np.array arr1) (np.array arr2) ws
  = Raise (ValueError "Array size mismatch. Pass similarly sized arrays").
Proof.
  intros Hlen. unfold run_corr. simpl.
  destruct (Z.eqb_spec (Z.of_nat (length arr1)) (Z.of_nat (length arr2)));
    [lia|reflexivity].
Qed.

(** Two 1-D arrays of different lengths are rejected with [ValueError]
    whatever the window size is, also one for which the allocation of the
    result would fail; arrays of one length are never rejected for their
    size. *)
Theorem run_corr_size_check (arr1 arr2 : list R) (window_size : Z) :
  run_corr (np.array arr1) (np.array arr2) window_size
  = Raise (ValueError "Array size mismatch. Pass similarly sized arrays")
  <-> length arr1 <> length arr2.
Proof.
  split.
  - intros H Hlen.
    destruct (Z_le_gt_dec window_size (Z.of_nat (length arr1) + 1)).
    + rewrite run_corr_run in H by assumption. discriminate H.
    + rewrite run_corr_too_large in H by (assumption || lia).
      discriminate H.
  - apply run_corr_mismatch.
Qed.

(** As for [smooth_ts]: a window size of at most [len + 1] gives
    [len - window_size + 1] cells, a larger one makes [np.empty] raise. *)
Theorem run_corr_any_window (arr1 arr2 : list R) (window_size : Z) :
  length arr1 = length arr2 ->
  ((window_size <= Z.of_nat (length arr1) + 1)%Z ->
   exists out,
     run_corr (np.array arr1) (np.array arr2) window_size
       = Ok (np.array out) /\
     Z.of_nat (length out)
       = (Z.of_nat (length arr1) - window_size + 1)%Z) /\
  ((Z.of_nat (length arr1) + 1 < window_size)%Z ->
   run_corr (np.array arr1) (np.array arr2) window_size
   = Raise (ValueError "negative dimensions are not allowed")).
Proof.
  intros Hlen. split; intros Hw.
  - eexists. split; [apply run_corr_run; assumption|].
    rewrite length_map, zrange_length. lia.
  - apply run_corr_too_large; assumption.
Qed.

Lemma zrange_In (i k : Z) (m : nat) :
  In k (np.zrange i m) -> (i <= k < i + Z.of_nat m)%Z.
Proof.
  revert i. induction m as [|m IH]; intros i H; simpl in H; [contradiction|].
  destruct H as [H|H]; [lia|]. apply IH in H. lia.
Qed.

(** A slice that ends before the last element does not see it. *)
Lemma slice_app_last {A : Type} (l : list A) (x : A) (lo hi : Z) :
  (0 <= lo <= hi)%Z -> (hi <= Z.of_nat (length l))%Z ->
  np.slice (l ++ [x]) lo hi = np.slice l lo hi.
Proof.
  intros H1 H2.
  rewrite !slice_in_range by (rewrite ?length_app; simpl; lia).
  rewrite skipn_app, firstn_app.
  replace (Z.to_nat (hi - lo) - length (skipn (Z.to_nat lo) l))%nat
    with O by (rewrite length_skipn; lia).
  simpl. apply app_nil_r.
Qed.

(** The slices end at [i + window_size - 1], exclusive, so the last element
    of the two arrays is never read: the result does not depend on it. *)
Theorem run_corr_ignores_last (arr1 arr2 : list R) (x x' y y' : R)
    (window_size : Z) :
  length arr1 = length arr2 ->
  (1 <= window_size)%Z ->
  run_corr (np.array (arr1 ++ [x])) (np.array (arr2 ++ [y])) window_size
  = run_corr (np.array (arr1 ++ [x'])) (np.array (arr2 ++ [y'])) window_size.
Proof.
  intros Hlen Hw.
  assert (Hl : forall a b : R, length (arr1 ++ [a]) = length (arr2 ++ [b]))
    by (intros; rewrite !length_app, Hlen; reflexivity).
  assert (Hn : forall a : R,
             Z.of_nat (length (arr1 ++ [a])) = (Z.of_nat (length arr1) + 1)%Z)
    by (intros; rewrite length_app; simpl; lia).
  destruct (Z_le_gt_dec window_size (Z.of_nat (length arr1) + 2)).
  - rewrite !run_corr_run by (auto; rewrite Hn; lia).
    rewrite !Hn. do 2 f_equal.
    apply map_ext_in. intros k Hk. apply zrange_In in Hk.
    rewrite !slice_app_last by lia. reflexivity.
  - rewrite !run_corr_too_large by (auto; rewrite Hn; lia). reflexivity.
Qed.

Lemma sum_products_swap (a b : R) (x y : list R) :
  np.sum (map (fun p => (fst p - a) * (snd p - b)) (combine x y))
  = np.sum (map (fun p => (fst p - b) * (snd p - a)) (combine y x)).
Proof.
  revert y. induction x as [|u x IH]; intros [|v y]; simpl; try reflexivity.
  unfold np.sum in *. simpl. rewrite IH. ring.
Qed.

Lemma cov_sym (x y : list R) :
  length x = length y -> np.cov x y = np.cov y x.
Proof.
  intros H. unfold np.cov. rewrite sum_products_swap, H. reflexivity.
Qed.

(** The correlation coefficient of two samples of one length does not
    depend on their order. *)
Lemma pearson_sym (x y : list R) :
  length x = length y -> np.pearson x y = np.pearson y x.
Proof.
  intros H. unfold np.pearson. rewrite (cov_sym x y H). f_equal.
  unfold Rdiv. ring.
Qed.

(** The running correlation of two 1-D arrays does not depend on their
    order, whether they are accepted or rejected. *)
Theorem run_corr_sym (arr1 arr2 : list R) (window_size : Z) :
  run_corr (np.array arr1) (np.array arr2) window_size
  = run_corr (np.array arr2) (np.array arr1) window_size.
Proof.
  destruct (Nat.eq_dec (length arr1) (length arr2)) as [Hlen|Hlen].
  - destruct (Z_le_gt_dec window_size (Z.of_nat (length arr1) + 1)).
    + rewrite !run_corr_run by (auto; rewrite <- ?Hlen; lia).
      rewrite <- Hlen. do 2 f_equal. apply map_ext. intros k.
      apply pearson_sym, slice_length_eq, Hlen.
    + rewrite !run_corr_too_large by (auto; rewrite <- ?Hlen; lia).
      reflexivity.
  - rewrite !run_corr_mismatch by auto. reflexivity.
Qed.

End RunCorrFacts.

Lemma run_corr_any_window_example :
  length [1; 2; 3] = length [4; 5; 7] /\
  (exists out,
      statmisc.run_corr (np.array [1; 2; 3]) (np.array [4; 5; 7]) 4
        = Ok (np.array out) /\
      Z.of_nat (length out) = 0%Z) /\
  statmisc.run_corr (np.array [1; 2; 3]) (np.array [4; 5; 7]) 5
  = Raise (ValueError "negative dimensions are not allowed").
Proof.
  assert (H : length [1; 2; 3] = length [4; 5; 7]) by reflexivity.
  split; [exact H|]. split.
  - apply (proj1 (run_corr_any_window [1; 2; 3] [4; 5; 7] 4 H)). simpl. lia.
  - apply (proj2 (run_corr_any_window [1; 2; 3] [4; 5; 7] 5 H)). simpl. lia.
Defined.

Lemma run_corr_ignores_last_example :
  (length [1; 2; 4] = length [3; 1; 4] /\ (1 <= 3)%Z) /\
  statmisc.run_corr (np.array ([1; 2; 4] ++ [8]))
                    (np.array ([3; 1; 4] ++ [1])) 3
  = statmisc.run_corr (np.array ([1; 2; 4] ++ [0]))
                      (np.array ([3; 1; 4] ++ [9])) 3.
Proof.
  assert (H1 : length [1; 2; 4] = length [3; 1; 4]) by reflexivity.
  assert (H2 : (1 <= 3)%Z) by lia.
  split; [split; assumption|].
  exact (run_corr_ignores_last [1; 2; 4] [3; 1; 4] 8 0 1 9 3 H1 H2).
Defined.

(** ** The significance level as a function of the two samples *)

Section SiglevFacts.

Import statmisc.

Variable t_cdf : R -> R -> R.

(** The value of [siglev] on two well-given samples, with the variance
    term as the specification writes it. *)
Lemma siglev_variance_term (X Y : sample) (pooled : bool) :
  snd (siglev t_cdf (raw_arg X) (raw_arg Y) (bar_arg X) (bar_arg Y)
         (std_arg X) (std_arg Y) (n_arg X) (n_arg Y) pooled)
  = Ok ((1 - (1 - t_cdf
                     (Rabs (sample_bar X - sample_bar Y)
                      / sqrt (variance_term pooled
                                (sample_std X) (sample_n X)
                                (sample_std Y) (sample_n Y)))
                     (sample_n X + sample_n Y - 2)) * 2) * 100).
Proof.
  rewrite siglev_value, denom_variance_term. reflexivity.
Qed.

Lemma variance_term_sym (pooled : bool) (sx nx sy ny : R) :
  variance_term pooled sx nx sy ny = variance_term pooled sy ny sx nx.
Proof.
  unfold variance_term. destruct pooled.
  - replace (ny + nx - 2) with (nx + ny - 2) by ring.
    replace (ny + nx) with (nx + ny) by ring.
    replace (ny * nx) with (nx * ny) by ring.
    unfold Rdiv. ring.
  - ring.
Qed.

(** Exchanging the two samples does not change the significance level. *)
Theorem siglev_sym (X Y : sample) (pooled : bool) :
  snd (siglev t_cdf (raw_arg X) (raw_arg Y) (bar_arg X) (bar_arg Y)
         (std_arg X) (std_arg Y) (n_arg X) (n_arg Y) pooled)
  = snd (siglev t_cdf (raw_arg Y) (raw_arg X) (bar_arg Y) (bar_arg X)
           (std_arg Y) (std_arg X) (n_arg Y) (n_arg X) pooled).
Proof.
  rewrite !siglev_variance_term.
  rewrite (variance_term_sym pooled (sample_std Y)).
  rewrite (Rabs_minus_sym (sample_bar Y)).
  replace (sample_n Y + sample_n X - 2) with (sample_n X + sample_n Y - 2)
    by ring.
  reflexivity.
Qed.

(** The one-sample use the docstring gives: with [ybar] the population
    mean, [ystd = 0], [ny = 1] and separate variances, the statistic is
    [|xbar - ybar| / (sx / sqrt(nx))] on [nx - 1] degrees of freedom. *)
Theorem siglev_one_sample (X : sample) (mu : R) :
  0 <= sample_std X -> 0 < sample_n X ->
  snd (siglev t_cdf (raw_arg X) None (bar_arg X) (Some mu)
         (std_arg X) (Some 0) (n_arg X) (Some 1) false)
  = Ok (100 * (1 - 2 * (1 - t_cdf
                              (Rabs (sample_bar X - mu)
                               / (sample_std X / sqrt (sample_n X)))
                              (sample_n X - 1)))).
Proof.
  intros Hs Hn.
  pose proof (siglev_variance_term X (Summary mu 0 1) false) as E.
  cbn [raw_arg bar_arg std_arg n_arg sample_bar sample_std sample_n] in E.
  rewrite E. unfold variance_term.
  replace (sample_std X ^ 2 / sample_n X + 0 ^ 2 / 1)
    with (sample_std X ^ 2 / sample_n X) by (field; lra).
  rewrite sqrt_div_alt by assumption.
  rewrite sqrt_pow2 by assumption.
  replace (sample_n X + 1 - 2) with (sample_n X - 1) by ring.
  f_equal. ring.
Qed.





End SiglevFacts.

(** ** The two tail conventions of [cnfint] *)

Section CnfintFacts.

Import statmisc.

Variable t_ppf : R -> R -> R.


End CnfintFacts.


Lemma siglev_one_sample_example :
  (0 <= sample_std (Summary 5 2 4) /\ 0 < sample_n (Summary 5 2 4)) /\
  snd (statmisc.siglev t2_cdf None None (Some 5) (Some 3) (Some 2) (Some 0)
         (Some 4) (Some 1) false)
  = Ok (100 * (1 - 2 * (1 - t2_cdf (Rabs (5 - 3) / (2 / sqrt 4)) (4 - 1)))).
Proof.
  assert (H1 : 0 <= sample_std (Summary 5 2 4)) by (simpl; lra).
  assert (H2 : 0 < sample_n (Summary 5 2 4)) by (simpl; lra).
  split; [split; assumption|].
  exact (siglev_one_sample t2_cdf (Summary 5 2 4) 3 H1 H2).
Defined.




(** ** Arrays without a dimension *)

Section ZeroDim.

Import statmisc.

Lemma len_zero_dim {A : Type} (a : np.ndarray A) :
  np.ndim a = O -> np.len a = Raise (TypeError "len() of unsized object").
Proof.
  unfold np.ndim, np.len. destruct (np.shape a); [reflexivity|discriminate].
Qed.

(** The guards reject more than one dimension only, so a 0-d array passes
    them, and each function fails at [len()] with [TypeError]. *)
Theorem zero_dim_type_error (a b : np.ndarray R) (data : np.ndarray float)
    (w : Z) (kendall_pvalue : list R -> list R -> float) :
  np.ndim a = O -> (np.ndim b <= 1)%nat -> np.ndim data = O ->
  let unsized := TypeError "len() of unsized object" in
  smooth_ts a w = Raise unsized /\
  run_corr a b w = Raise unsized /\
  autocorr a b = Raise unsized /\
  mann_kendall kendall_pvalue data = Raise unsized.
Proof.
  intros Ha Hb Hd unsized.
  unfold smooth_ts, run_corr, autocorr, mann_kendall.
  rewrite Ha, Hd, (len_zero_dim a Ha), (len_zero_dim data Hd).
  destruct (Nat.ltb_spec 1 (np.ndim b)); [lia|].
  repeat split; reflexivity.
Qed.

End ZeroDim.

Lemma zero_dim_type_error_example :
  let a := np.mk_ndarray [] [5] in
  let b := np.array [1; 2] in
  let data := np.mk_ndarray [] [fin 5] in
  let unsized := TypeError "len() of unsized object" in
  statmisc.smooth_ts a 1 = Raise unsized /\
  statmisc.run_corr a b 1 = Raise unsized /\
  statmisc.autocorr a b = Raise unsized /\
  statmisc.mann_kendall (fun _ _ => nan) data = Raise unsized.
Proof.
  intros a b data.
  apply (zero_dim_type_error a b data 1 (fun _ _ => nan)).
  - reflexivity.
  - unfold np.ndim. simpl. lia.
  - reflexivity.
Defined.

(** ** What the normalisation of [autocorr] gives *)

Section AutocorrFacts.

Import statmisc.


Lemma sum_map_shift (c : R) (l : list R) :
  np.sum (map (fun x => x + c) l) = np.sum l + INR (length l) * c.
Proof.
  unfold np.sum. induction l as [|x l IH]; [simpl; ring|].
  simpl map. simpl fold_right. rewrite IH.
  change (length (x :: l)) with (S (length l)). rewrite S_INR. ring.
Qed.

(** Adding a constant to a non-empty sample adds it to the mean and leaves
    the standard deviation as it is. *)
Lemma mean_shift (c : R) (l : list R) :
  l <> [] -> np.mean (map (fun x => x + c) l) = np.mean l + c.
Proof.
  intros Hne. unfold np.mean. rewrite sum_map_shift, length_map.
  field. apply not_0_INR. destruct l; [congruence|discriminate].
Qed.

Lemma std_shift (c : R) (l : list R) :
  np.std (map (fun x => x + c) l) = np.std l.
Proof.
  destruct l as [|y l]; [reflexivity|].
  unfold np.std. rewrite mean_shift by discriminate.
  rewrite map_map. f_equal. unfold np.mean at 1 3.
  rewrite !length_map. f_equal. f_equal.
  apply map_ext. intros x. f_equal. ring.
Qed.

Lemma norm_a_shift (c : R) (a : list R) :
  norm_a (map (fun x => x + c) a) = norm_a a.
Proof.
  destruct a as [|y a]; [reflexivity|].
  unfold norm_a. rewrite std_shift, mean_shift, length_map by discriminate.
  rewrite map_map. apply map_ext. intros x. f_equal. ring.
Qed.

Lemma norm_v_shift (c : R) (v : list R) :
  norm_v (map (fun x => x + c) v) = norm_v v.
Proof.
  destruct v as [|y v]; [reflexivity|].
  unfold norm_v. rewrite std_shift, mean_shift by discriminate.
  rewrite map_map. apply map_ext. intros x. f_equal. ring.
Qed.

(** Both inputs are centred, so adding a constant to either of them does
    not change the result (over the reals). *)
Theorem autocorr_shift (a v : list R) (c d : R) :
  autocorr (np.array (map (fun x => x + c) a))
           (np.array (map (fun x => x + d) v))
  = autocorr (np.array a) (np.array v).
Proof.
  rewrite !autocorr_1d, norm_a_shift, norm_v_shift. reflexivity.
Qed.





End AutocorrFacts.



(** ** Trends that the rank correlation cannot or need not see *)

Section MannKendallFacts.

Import statmisc.

Variable kendall_pvalue : list R -> list R -> float.

Lemma StronglySorted_any {A : Type} (l : list A) :
  StronglySorted (fun _ _ => True) l.
Proof.
  induction l as [|x l IH]; constructor; [exact IH|].
  apply Forall_forall. intros; exact I.
Qed.

Lemma StronglySorted_repeat {A : Type} (c : A) (n : nat) :
  StronglySorted eq (repeat c n).
Proof.
  induction n as [|n IH]; simpl; constructor; [exact IH|].
  apply Forall_forall. intros y Hy. symmetry. exact (repeat_spec _ _ _ Hy).
Qed.

Lemma Req_b_true (a b : R) : a = b -> st.Req_b a b = true.
Proof.
  intros H. unfold st.Req_b. destruct (Req_dec_T a b); tauto.
Qed.

(** A constant sample is all ties: the rank correlation is [nan]. *)
Lemma kendalltau_constant (xs : list R) (c : R) :
  st.kendalltau kendall_pvalue (map fin xs)
    (map fin (repeat c (length xs)))
  = Ok (nan, nan).
Proof.
  unfold st.kendalltau.
  rewrite !length_map, repeat_length, Nat.eqb_refl. cbn [negb].
  destruct (Nat.eqb_spec (length xs) 0) as [E|E]; [reflexivity|].
  rewrite !existsb_isnan_fin. cbn [orb]. rewrite !map_value_fin. cbv zeta.
  pose proof (StronglySorted_combine _ _ xs (repeat c (length xs))
                (StronglySorted_any xs)
                (StronglySorted_repeat c (length xs))) as Hxy.
  set (before := fun a b : R * R => _) in Hxy.
  rewrite (count_pairs_all before st.tied_y _ Hxy).
  - rewrite length_combine, repeat_length, Nat.min_id, Nat.eqb_refl.
    rewrite orb_true_r. reflexivity.
  - intros a b [_ H]. unfold st.tied_y. apply Req_b_true, H.
Qed.

(** On a constant series, of any length, [mann_kendall] returns
    [(nan, nan)]: no trend statistic, and no exception. *)
Theorem mann_kendall_constant (c : R) (n : nat) :
  mann_kendall kendall_pvalue (np.array (map fin (repeat c n)))
  = Ok (nan, nan).
Proof.
  rewrite mann_kendall_1d, length_map, repeat_length.
  rewrite <- (arange_length n) at 2.
  apply kendalltau_constant.
Qed.

Lemma combine_map_r {A B C : Type} (f : B -> C) (xs : list A)
    (ys : list B) :
  combine xs (map f ys) = map (fun p => (fst p, f (snd p))) (combine xs ys).
Proof.
  revert ys. induction xs as [|x xs IH]; intros [|y ys]; simpl;
    try reflexivity.
  f_equal. apply IH.
Qed.

Lemma count_pairs_ext {A : Type} (p q : A -> A -> bool) (l : list A) :
  (forall a b, p a b = q a b) -> st.count_pairs p l = st.count_pairs q l.
Proof.
  intros H. induction l as [|a l IH]; simpl; [reflexivity|].
  rewrite IH. f_equal. f_equal. apply filter_ext. intros b. apply H.
Qed.

Lemma count_pairs_map {A B : Type} (p : B -> B -> bool) (g : A -> B)
    (l : list A) :
  st.count_pairs p (map g l) = st.count_pairs (fun a b => p (g a) (g b)) l.
Proof.
  induction l as [|a l IH]; simpl; [reflexivity|].
  rewrite IH. f_equal.
  clear IH. induction l as [|b l IH]; simpl; [reflexivity|].
  destruct (p (g a) (g b)); simpl; rewrite IH; reflexivity.
Qed.

Section Increasing.

Variable f : R -> R.
Hypothesis f_increasing : forall a b, a < b -> f a < f b.

Lemma Rlt_b_increasing (a b : R) : st.Rlt_b (f a) (f b) = st.Rlt_b a b.
Proof.
  unfold st.Rlt_b.
  destruct (Rlt_dec a b) as [H|H], (Rlt_dec (f a) (f b)) as [H'|H'];
    try reflexivity.
  - exfalso. apply H', f_increasing, H.
  - exfalso. destruct (Rtotal_order a b) as [Hlt|[Heq|Hgt]].
    + contradiction.
    + subst b. lra.
    + apply f_increasing in Hgt. lra.
Qed.

Lemma Req_b_increasing (a b : R) : st.Req_b (f a) (f b) = st.Req_b a b.
Proof.
  unfold st.Req_b.
  destruct (Req_dec_T a b) as [H|H], (Req_dec_T (f a) (f b)) as [H'|H'];
    try reflexivity.
  - exfalso. apply H'. subst b. reflexivity.
  - exfalso. destruct (Rtotal_order a b) as [Hlt|[Heq|Hgt]].
    + apply f_increasing in Hlt. lra.
    + contradiction.
    + apply f_increasing in Hgt. lra.
Qed.

(** The statistic reads the series only through comparisons, so a strictly
    increasing change of scale of the data leaves [tau] as it is (the
    p-value is left to SciPy). *)
Lemma kendalltau_increasing (xs ys : list R) :
  (r <- st.kendalltau kendall_pvalue (map fin xs) (map fin (map f ys)) ;;
   Ok (fst r))
  = (r <- st.kendalltau kendall_pvalue (map fin xs) (map fin ys) ;;
     Ok (fst r)).
Proof.
  unfold st.kendalltau. rewrite !length_map.
  destruct (negb (length xs =? length ys)%nat); [reflexivity|].
  destruct (length xs =? 0)%nat; [reflexivity|].
  rewrite !existsb_isnan_fin. cbn [orb]. rewrite !map_value_fin. cbv zeta.
  rewrite combine_map_r, !count_pairs_map.
  set (g := fun p : R * R => (fst p, f (snd p))).
  rewrite (count_pairs_ext (fun a b => st.tied_x (g a) (g b)) st.tied_x)
    by reflexivity.
  rewrite (count_pairs_ext (fun a b => st.tied_y (g a) (g b)) st.tied_y)
    by (intros a b; apply Req_b_increasing).
  rewrite (count_pairs_ext (fun a b => st.tied_xy (g a) (g b)) st.tied_xy)
    by (intros a b; unfold st.tied_xy, st.tied_x, st.tied_y, g;
        cbn [fst snd]; rewrite Req_b_increasing; reflexivity).
  rewrite (count_pairs_ext (fun a b => st.discordant (g a) (g b))
             st.discordant)
    by (intros a b; unfold st.discordant, g; cbn [fst snd];
        rewrite !Rlt_b_increasing; reflexivity).
  destruct (_ || _)%bool; reflexivity.
Qed.

Theorem mann_kendall_increasing_scale (data : list R) :
  (r <- mann_kendall kendall_pvalue (np.array (map fin (map f data))) ;;
   Ok (fst r))
  = (r <- mann_kendall kendall_pvalue (np.array (map fin data)) ;;
     Ok (fst r)).
Proof.
  rewrite !mann_kendall_1d, !length_map. apply kendalltau_increasing.
Qed.

End Increasing.

End MannKendallFacts.

(** The series [3, 1, 2] and its image under [x -> 2x + 1]. *)
Lemma mann_kendall_increasing_scale_example :
  let no_pvalue := fun _ _ : list R => nan in
  let f := fun x : R => 2 * x + 1 in
  (r <- statmisc.mann_kendall no_pvalue
          (np.array (map fin (map f [3; 1; 2]))) ;;
   Ok (fst r))
  = (r <- statmisc.mann_kendall no_pvalue (np.array (map fin [3; 1; 2])) ;;
     Ok (fst r)).
Proof.
  intros no_pvalue f.
  apply (mann_kendall_increasing_scale no_pvalue f).
  intros a b H. unfold f. lra.
Defined.
